(** * Arduino-Log: the leveled logger of ArduinoLog.h / ArduinoLog.cpp

    A shallow embedding of class [Logging] and of the properties its
    specification states.

    The class is modelled in its default build: line 32 of ArduinoLog.h
    ([//#define DISABLE_LOGGING]) is commented out, so every
    [#ifndef DISABLE_LOGGING] branch is the one compiled.

    The logger talks to two kinds of collaborators that are not part of
    the library: the [Print] object it was given (the sink) and the two
    callbacks of type [printfunction].  Their code is unknown, so a member
    function is modelled as a computation that (1) reads and writes the
    fields of the [Logging] object and (2) appends to a trace every call
    it makes on a collaborator.  Calling a method through a null [Print*]
    ends the computation with a fault. *)

From Stdlib Require Import ZArith List String Ascii Bool Lia.
From Stdlib Require Import DecimalString.
Import ListNotations.
Open Scope string_scope.
Open Scope list_scope.
Open Scope Z_scope.

(* ================================================================== *)
(** ** Data *)

(** Addresses of [Print] objects and of callback functions. *)
Definition address := positive.

(** A C++ pointer: null or the address of an object. *)
Definition pointer := option address.
Abbreviation nullptr := (@None address).

(** The type [printfunction] of ArduinoLog.h, line 25: a pointer to a
    function that takes a [Print] pointer and returns nothing.  It is
    modelled by the address of the function. *)
Definition printfunction := pointer.

(** One argument of the variadic pack [Args... args]. *)
Inductive arg : Type :=
| ArgInt (n : Z)
| ArgChar (c : ascii)
| ArgStr (s : string).

(** ArduinoLog.h, lines 34-40. *)
Definition LOG_LEVEL_SILENT : Z := 0.
Definition LOG_LEVEL_FATAL  : Z := 1.
Definition LOG_LEVEL_ERROR  : Z := 2.
Definition LOG_LEVEL_WARN   : Z := 3.
Definition LOG_LEVEL_INFO   : Z := 4.
Definition LOG_LEVEL_DEBUG  : Z := 5.
Definition LOG_LEVEL_TRACE  : Z := 6.

(** The private fields of [Logging] (ArduinoLog.h, lines 274-279).  An
    [int] is a [Z]: the class only compares levels and computes
    [level - 1] for [1 <= level], so no operation can wrap around. *)
Record Logging : Type := mkLogging {
  _level     : Z;
  _showLevel : bool;
  _logOutput : pointer;
  _prefix    : printfunction;
  _suffix    : printfunction
}.

(** The default constructor (ArduinoLog.h, lines 73-81) together with the
    default member initialisers of [_prefix] and [_suffix] (lines 278-279). *)
Definition Logging_ctor : Logging :=
  {| _level := LOG_LEVEL_SILENT;
     _showLevel := true;
     _logOutput := nullptr;
     _prefix := nullptr;
     _suffix := nullptr |}.

(** Which of the two callback slots a call goes through. *)
Inductive slot : Type := Prefix | Suffix.

(** The calls the logger makes on its collaborators. *)
Inductive event : Type :=
| Hook (k : slot) (f : address) (output : pointer)
    (* [_prefix(_logOutput)] or [_suffix(_logOutput)] *)
| PrintChar (out : address) (c : ascii)
    (* [out->print(c)], one character *)
| PrintStr (out : address) (s : string)
    (* [out->print(s)], a C string *)
| Printf (out : address) (msg : string) (args : list arg).
    (* [out->printf(msg, args...)] *)

(** What can go wrong in the C++: a method call through a null pointer
    and an array read outside the array. *)
Inductive fault : Type := NullDereference | IndexOutOfBounds.

Inductive result (A : Type) : Type :=
| Returned (a : A)
| Crashed (f : fault).
Arguments Returned {A} a.
Arguments Crashed {A} f.

(** The logger object and the trace of collaborator calls so far
    (oldest first). *)
Record Machine : Type := mkMachine {
  this    : Logging;
  emitted : list event
}.

(* ================================================================== *)
(** ** The monad of member functions *)

Definition M (A : Type) : Type := Machine -> result A * Machine.

Definition ret {A} (a : A) : M A := fun st => (Returned a, st).

Definition bind {A B} (c : M A) (k : A -> M B) : M B :=
  fun st =>
    match c st with
    | (Returned a, st') => k a st'
    | (Crashed f, st') => (Crashed f, st')
    end.

Declare Scope logging_scope.
Delimit Scope logging_scope with logging.
Notation "x <- c ;; k" := (bind c (fun x => k))
  (at level 61, c at next level, right associativity) : logging_scope.
Notation "c ;; k" := (bind c (fun _ => k))
  (at level 61, right associativity) : logging_scope.
Open Scope logging_scope.

(** Read a field of [*this]. *)
Definition read {A} (field : Logging -> A) : M A :=
  fun st => (Returned (field (this st)), st).

(** Replace [*this]. *)
Definition update (f : Logging -> Logging) : M unit :=
  fun st => (Returned tt, {| this := f (this st); emitted := emitted st |}).

(** Record a call on a collaborator. *)
Definition emit (e : event) : M unit :=
  fun st => (Returned tt, {| this := this st; emitted := emitted st ++ [e] |}).

Definition crash {A} (f : fault) : M A := fun st => (Crashed f, st).

(** [p->...]: the object [p] points to. *)
Definition deref (p : pointer) : M address :=
  match p with
  | Some a => ret a
  | None => crash NullDereference
  end.

(** [a[i]] for a C array given as the list of its elements. *)
Definition index (a : list ascii) (i : Z) : M ascii :=
  if (i <? 0) || (Z.of_nat (List.length a) <=? i) then crash IndexOutOfBounds
  else ret (nth (Z.to_nat i) a zero).

(** A string literal as a [char] array: its characters and the
    terminating NUL. *)
Definition char_array (s : string) : list ascii :=
  list_ascii_of_string s ++ [zero].

(* ================================================================== *)
(** ** ArduinoLog.cpp *)

(** Modelled from the spec: the macro [constrain] of Arduino.h, which the
    repository uses and does not define.  The specification says that the
    level is clamped into the range; the Arduino core defines
    [constrain(amt,low,high)] as
    [((amt)<(low)?(low):((amt)>(high)?(high):(amt)))]. *)
Definition constrain (amt low high : Z) : Z :=
  if amt <? low then low else if amt >? high then high else amt.

(** [void Logging::setLevel(int level)] *)
Definition setLevel (level : Z) : M unit :=
  update (fun l =>
    {| _level := constrain level LOG_LEVEL_SILENT LOG_LEVEL_TRACE;
       _showLevel := _showLevel l;
       _logOutput := _logOutput l;
       _prefix := _prefix l;
       _suffix := _suffix l |}).

(** [int Logging::getLevel() const] *)
Definition getLevel : M Z := read _level.

(** [void Logging::setShowLevel(bool showLevel)] *)
Definition setShowLevel (showLevel : bool) : M unit :=
  update (fun l =>
    {| _level := _level l;
       _showLevel := showLevel;
       _logOutput := _logOutput l;
       _prefix := _prefix l;
       _suffix := _suffix l |}).

(** [bool Logging::getShowLevel() const] *)
Definition getShowLevel : M bool := read _showLevel.

(** [void Logging::setPrefix(printfunction f)] *)
Definition setPrefix (f : printfunction) : M unit :=
  update (fun l =>
    {| _level := _level l;
       _showLevel := _showLevel l;
       _logOutput := _logOutput l;
       _prefix := f;
       _suffix := _suffix l |}).

(** [void Logging::setSuffix(printfunction f)] *)
Definition setSuffix (f : printfunction) : M unit :=
  update (fun l =>
    {| _level := _level l;
       _showLevel := _showLevel l;
       _logOutput := _logOutput l;
       _prefix := _prefix l;
       _suffix := f |}).

(** [void Logging::begin(int level, Print* logOutput, bool showLevel)] *)
Definition begin (level : Z) (logOutput : pointer) (showLevel : bool) : M unit :=
  setLevel level ;;
  setShowLevel showLevel ;;
  update (fun l =>
    {| _level := _level l;
       _showLevel := _showLevel l;
       _logOutput := logOutput;
       _prefix := _prefix l;
       _suffix := _suffix l |}).

(* ================================================================== *)
(** ** ArduinoLog.h *)

(** [static const char levels[] = "FEWIDT";] *)
Definition levels : list ascii := char_array "FEWIDT".

(** [if (hook != nullptr) { hook(_logOutput); }] for the hook in slot [k]. *)
Definition call_hook (k : slot) : M unit :=
  hook <- read (match k with Prefix => _prefix | Suffix => _suffix end) ;;
  match hook with
  | Some f => output <- read _logOutput ;; emit (Hook k f output)
  | None => ret tt
  end.

(** [template <class T, class... Args>
     void printLevel(int level, T msg, Args... args)]
    (ArduinoLog.h, lines 245-271). *)
Definition printLevel (level : Z) (msg : string) (args : list arg) : M unit :=
  threshold <- read _level ;;
  if level >? threshold then ret tt
  else
    call_hook Prefix ;;
    (showLevel <- read _showLevel ;;
     if showLevel then
       c <- index levels (level - 1) ;;
       output <- read _logOutput ;;
       out <- deref output ;;
       emit (PrintChar out c) ;;
       output <- read _logOutput ;;
       out <- deref output ;;
       emit (PrintStr out ": ")
     else ret tt) ;;
    (output <- read _logOutput ;;
     out <- deref output ;;
     emit (Printf out msg args)) ;;
    call_hook Suffix.

(** The six public entry points (ArduinoLog.h, lines 153-242). *)
Definition fatal (msg : string) (args : list arg) : M unit :=
  printLevel LOG_LEVEL_FATAL msg args.
Definition error (msg : string) (args : list arg) : M unit :=
  printLevel LOG_LEVEL_ERROR msg args.
Definition warn (msg : string) (args : list arg) : M unit :=
  printLevel LOG_LEVEL_WARN msg args.
Definition info (msg : string) (args : list arg) : M unit :=
  printLevel LOG_LEVEL_INFO msg args.
Definition debug (msg : string) (args : list arg) : M unit :=
  printLevel LOG_LEVEL_DEBUG msg args.
Definition trace (msg : string) (args : list arg) : M unit :=
  printLevel LOG_LEVEL_TRACE msg args.

(* ================================================================== *)
(** ** The public interface as data *)

(** The six logging entry points, their tier constant and their code. *)
Inductive entry : Type := Fatal | Error | Warn | Info | Debug | Trace.

Definition tier (e : entry) : Z :=
  match e with
  | Fatal => LOG_LEVEL_FATAL
  | Error => LOG_LEVEL_ERROR
  | Warn => LOG_LEVEL_WARN
  | Info => LOG_LEVEL_INFO
  | Debug => LOG_LEVEL_DEBUG
  | Trace => LOG_LEVEL_TRACE
  end.

Definition log (e : entry) : string -> list arg -> M unit :=
  match e with
  | Fatal => fatal
  | Error => error
  | Warn => warn
  | Info => info
  | Debug => debug
  | Trace => trace
  end.

(** One call of a public member function by client code. *)
Inductive call : Type :=
| Begin (level : Z) (logOutput : pointer) (showLevel : bool)
| SetLevel (level : Z)
| GetLevel
| SetShowLevel (showLevel : bool)
| GetShowLevel
| SetPrefix (f : printfunction)
| SetSuffix (f : printfunction)
| Log (e : entry) (msg : string) (args : list arg).

Definition perform (c : call) : M unit :=
  match c with
  | Begin level logOutput showLevel => begin level logOutput showLevel
  | SetLevel level => setLevel level
  | GetLevel => getLevel ;; ret tt
  | SetShowLevel showLevel => setShowLevel showLevel
  | GetShowLevel => getShowLevel ;; ret tt
  | SetPrefix f => setPrefix f
  | SetSuffix f => setSuffix f
  | Log e msg args => log e msg args
  end.

(** A client program: member function calls one after the other.  A
    fault ends the program. *)
Fixpoint perform_all (cs : list call) : M unit :=
  match cs with
  | [] => ret tt
  | c :: cs' => perform c ;; perform_all cs'
  end.

(** A logger object with nothing emitted yet. *)
Definition fresh (l : Logging) : Machine := {| this := l; emitted := [] |}.

(** The state of the global [Logging Log = Logging();]
    (ArduinoLog.cpp, line 89) when the program starts. *)
Definition boot : Machine := fresh Logging_ctor.

(** The three observations on a member function run on the object [l]. *)
Definition outcome {A} (c : M A) (l : Logging) : result A := fst (c (fresh l)).
Definition after {A} (c : M A) (l : Logging) : Logging := this (snd (c (fresh l))).
Definition events {A} (c : M A) (l : Logging) : list event :=
  emitted (snd (c (fresh l))).

(* ================================================================== *)
(** ** Observations on traces *)

(** The calls made on [Print] objects, as opposed to callbacks. *)
Definition is_output (e : event) : bool :=
  match e with
  | Hook _ _ _ => false
  | PrintChar _ _ | PrintStr _ _ | Printf _ _ _ => true
  end.

Definition is_hook (k : slot) (e : event) : bool :=
  match e with
  | Hook Prefix _ _ => match k with Prefix => true | Suffix => false end
  | Hook Suffix _ _ => match k with Prefix => false | Suffix => true end
  | _ => false
  end.

(** The calls of a trace received by the [Print] object at [out]. *)
Definition sent_to (out : address) (tr : list event) : list event :=
  filter (fun e => match e with
                   | Hook _ _ _ => false
                   | PrintChar o _ | PrintStr o _ | Printf o _ _ => Pos.eqb o out
                   end) tr.

Definition outputs (tr : list event) : list event := filter is_output tr.

(** A trace without the calls of the hook in slot [k]. *)
Definition without_hook (k : slot) (tr : list event) : list event :=
  filter (fun e => negb (is_hook k e)) tr.

(** The glyph and separator, when they are shown. *)
Definition glyph_events (showLevel : bool) (out : address) (c : ascii)
  : list event :=
  if showLevel then [PrintChar out c; PrintStr out ": "] else [].

(** The events a call of the hook in slot [k] adds for the object [l]. *)
Definition hook_events (k : slot) (l : Logging) : list event :=
  match (match k with Prefix => _prefix l | Suffix => _suffix l end) with
  | Some f => [Hook k f (_logOutput l)]
  | None => []
  end.

(** The glyph of a tier, [levels[level - 1]], for [1 <= level <= 6]. *)
Definition glyph (level : Z) : ascii :=
  nth (Z.to_nat (level - 1)) (list_ascii_of_string "FEWIDT") zero.

Section Sink.

(** How the [Print] objects format: [vprintf msg args] is the text that
    [printf(msg, args...)] writes.  The formatter belongs to the sink,
    not to the logger. *)
Variable vprintf : string -> list arg -> string.

(** The text one event delivers to the [Print] object at [out]. *)
Definition delivers (out : address) (e : event) : string :=
  match e with
  | Hook _ _ _ => ""
  | PrintChar o c => if Pos.eqb o out then String c "" else ""
  | PrintStr o s => if Pos.eqb o out then s else ""
  | Printf o msg args => if Pos.eqb o out then vprintf msg args else ""
  end.

(** The text the logger itself writes to [out] along a trace. *)
Definition received (out : address) (tr : list event) : string :=
  fold_right (fun e rest => (delivers out e ++ rest)%string) "" tr.

End Sink.

(** A small formatter for the examples: [%%] is a percent sign and any
    other directive [%x] prints the next argument. *)
Definition show_arg (a : arg) : string :=
  match a with
  | ArgInt n => NilZero.string_of_int (Z.to_int n)
  | ArgChar c => String c ""
  | ArgStr s => s
  end.

Fixpoint sample_vprintf (msg : string) (args : list arg) : string :=
  match msg with
  | EmptyString => ""
  | String c rest =>
      if Ascii.eqb c "%" then
        match rest with
        | EmptyString => String c ""
        | String d rest' =>
            if Ascii.eqb d "%" then String "%" (sample_vprintf rest' args)
            else match args with
                 | a :: args' => (show_arg a ++ sample_vprintf rest' args')%string
                 | [] => sample_vprintf rest' []
                 end
        end
      else String c (sample_vprintf rest args)
  end.


(* ================================================================== *)
(** ** Configurations, programs and relations used in the statements *)

(** A logger used in the examples: threshold INFO, glyphs shown, a sink
    at address 7 and both hooks installed. *)
Definition sample_logger : Logging :=
  {| _level := LOG_LEVEL_INFO;
     _showLevel := true;
     _logOutput := Some 7%positive;
     _prefix := Some 1%positive;
     _suffix := Some 2%positive |}.

(** The logger after [setLevel(6)] on the object as constructed: the
    threshold is raised and [begin] was never called. *)
Definition raised_without_begin : Logging :=
  after (setLevel LOG_LEVEL_TRACE) Logging_ctor.

(** The calls that configure: [begin] and the four setters. *)
Definition is_configuration (c : call) : bool :=
  match c with
  | Begin _ _ _ | SetLevel _ | SetShowLevel _ | SetPrefix _ | SetSuffix _ => true
  | GetLevel | GetShowLevel | Log _ _ _ => false
  end.

(** [setPrefix] or [setSuffix], by slot. *)
Definition set_hook (k : slot) (f : printfunction) : M unit :=
  match k with
  | Prefix => setPrefix f
  | Suffix => setSuffix f
  end.

(** Does the call assign the hook in slot [k]? *)
Definition sets (k : slot) (c : call) : bool :=
  match c with
  | SetPrefix _ => match k with Prefix => true | Suffix => false end
  | SetSuffix _ => match k with Prefix => false | Suffix => true end
  | _ => false
  end.

(** Two machines run in step: the first has the hook of slot [k]
    cleared and is otherwise the second, and its trace is the trace of
    the second without the calls of that hook. *)
Definition in_step (k : slot) (a b : Machine) : Prop :=
  this a = after (set_hook k nullptr) (this b)
  /\ emitted a = without_hook k (emitted b).

(* ================================================================== *)
(** ** Logging sessions *)

(** One logging call: the entry point, the message and its arguments. *)
Record message : Type := mkMessage {
  via  : entry;
  text : string;
  pack : list arg
}.

(** A session: logging calls only, one after the other. *)
Definition log_calls (ms : list message) : list call :=
  map (fun m => Log (via m) (text m) (pack m)) ms.

(** Is the tier of the message at most the threshold of [l]? *)
Definition passes (l : Logging) (m : message) : bool :=
  tier (via m) <=? _level l.

(** The calls one passing message makes on a logger [l] whose sink is
    [out]. *)
Definition line (l : Logging) (out : address) (m : message) : list event :=
  hook_events Prefix l
  ++ glyph_events (_showLevel l) out (glyph (tier (via m)))
  ++ [Printf out (text m) (pack m)]
  ++ hook_events Suffix l.

(** The text of one passing message, for a formatter [vprintf]. *)
Definition line_text (vprintf : string -> list arg -> string) (l : Logging)
    (m : message) : string :=
  if _showLevel l
  then String (glyph (tier (via m))) (": " ++ vprintf (text m) (pack m))
  else vprintf (text m) (pack m).

Definition session_text (vprintf : string -> list arg -> string)
    (l : Logging) (ms : list message) : string :=
  fold_right (fun m rest => (line_text vprintf l m ++ rest)%string) "" ms.

(** The object a call on a collaborator is directed at: the receiver of
    a [Print] method, the argument of a hook. *)
Definition target (e : event) : pointer :=
  match e with
  | Hook _ _ output => output
  | PrintChar out _ | PrintStr out _ | Printf out _ _ => Some out
  end.

(** Is the sink given to [begin], if the call is one, non-null? *)
Definition gives_sink (c : call) : bool :=
  match c with
  | Begin _ None _ => false
  | _ => true
  end.

(** The data members of [Logging]. *)
Inductive field : Type := FLevel | FShowLevel | FLogOutput | FPrefix | FSuffix.

Definition field_eqb (f g : field) : bool :=
  match f, g with
  | FLevel, FLevel | FShowLevel, FShowLevel | FLogOutput, FLogOutput
  | FPrefix, FPrefix | FSuffix, FSuffix => true
  | _, _ => false
  end.

(** The data members a member function assigns (ArduinoLog.cpp, lines
    34-87; [printLevel] and the getters assign none). *)
Definition assigned (c : call) : list field :=
  match c with
  | Begin _ _ _ => [FLevel; FShowLevel; FLogOutput]
  | SetLevel _ => [FLevel]
  | SetShowLevel _ => [FShowLevel]
  | SetPrefix _ => [FPrefix]
  | SetSuffix _ => [FSuffix]
  | GetLevel | GetShowLevel | Log _ _ _ => []
  end.

Definition assigns (c : call) (f : field) : bool :=
  existsb (field_eqb f) (assigned c).

(** Every field [c] assigns is assigned by [d] too. *)
Definition overwritten_by (c d : call) : bool :=
  forallb (assigns d) (assigned c).

(** No field is assigned by both. *)
Definition disjoint (c d : call) : bool :=
  forallb (fun f => negb (assigns d f)) (assigned c).

(* ================================================================== *)
(** ** The build with [DISABLE_LOGGING] defined *)

(** With [DISABLE_LOGGING] defined the class has no data member
    (ArduinoLog.h, lines 273-280) and a member function keeps what is
    outside its [#ifndef] or in its [#else]: nothing, except for the two
    getters (ArduinoLog.cpp, lines 54-56 and 70-72).  The monad is the
    one of the default build; the logger part of the machine stands for
    no data here. *)
Module DisabledBuild.

Definition begin (level : Z) (logOutput : pointer) (showLevel : bool)
  : M unit := ret tt.
Definition setLevel (level : Z) : M unit := ret tt.
Definition getLevel : M Z := ret 0.
Definition setShowLevel (showLevel : bool) : M unit := ret tt.
Definition getShowLevel : M bool := ret false.
Definition setPrefix (f : printfunction) : M unit := ret tt.
Definition setSuffix (f : printfunction) : M unit := ret tt.

Definition fatal (msg : string) (args : list arg) : M unit := ret tt.
Definition error (msg : string) (args : list arg) : M unit := ret tt.
Definition warn (msg : string) (args : list arg) : M unit := ret tt.
Definition info (msg : string) (args : list arg) : M unit := ret tt.
Definition debug (msg : string) (args : list arg) : M unit := ret tt.
Definition trace (msg : string) (args : list arg) : M unit := ret tt.

Definition log (e : entry) : string -> list arg -> M unit :=
  match e with
  | Fatal => fatal
  | Error => error
  | Warn => warn
  | Info => info
  | Debug => debug
  | Trace => trace
  end.

(** A call by client code, as in the default build. *)
Definition perform (c : call) : M unit :=
  match c with
  | Begin level logOutput showLevel => begin level logOutput showLevel
  | SetLevel level => setLevel level
  | GetLevel => getLevel ;; ret tt
  | SetShowLevel showLevel => setShowLevel showLevel
  | GetShowLevel => getShowLevel ;; ret tt
  | SetPrefix f => setPrefix f
  | SetSuffix f => setSuffix f
  | Log e msg args => log e msg args
  end.

Fixpoint perform_all (cs : list call) : M unit :=
  match cs with
  | [] => ret tt
  | c :: cs' => perform c ;; perform_all cs'
  end.

End DisabledBuild.

(* ================================================================== *)
(** ** How the member functions run *)

Lemma tier_range (e : entry) : 1 <= tier e <= 6.
Proof. destruct e; cbv; split; discriminate. Qed.

Lemma log_printLevel (e : entry) : log e = printLevel (tier e).
Proof. destruct e; reflexivity. Qed.

Lemma machine_eta (st : Machine) :
  {| this := this st; emitted := emitted st |} = st.
Proof. destruct st; reflexivity. Qed.

Lemma call_hook_run (k : slot) (st : Machine) :
  call_hook k st =
  (Returned tt,
   {| this := this st; emitted := emitted st ++ hook_events k (this st) |}).
Proof.
  unfold call_hook, hook_events, bind, read, emit, ret.
  destruct k; simpl.
  - destruct (_prefix (this st)); simpl; [reflexivity|].
    now rewrite app_nil_r, machine_eta.
  - destruct (_suffix (this st)); simpl; [reflexivity|].
    now rewrite app_nil_r, machine_eta.
Qed.

Arguments call_hook : simpl never.

Lemma index_levels (level : Z) :
  1 <= level <= 6 -> index levels (level - 1) = ret (glyph level).
Proof.
  intros H.
  assert (level = 1 \/ level = 2 \/ level = 3 \/ level = 4 \/ level = 5 \/ level = 6)
    as [-> | [-> | [-> | [-> | [-> | ->]]]]] by lia; reflexivity.
Qed.

(** Step 1 of the dispatch: a tier above the threshold returns at once. *)
Lemma printLevel_filtered level msg args (st : Machine) :
  _level (this st) < level ->
  printLevel level msg args st = (Returned tt, st).
Proof.
  intros H. unfold printLevel, bind, read; simpl.
  rewrite Z.gtb_ltb. apply Z.ltb_lt in H. now rewrite H.
Qed.

(** A passing call on a logger that has a sink. *)
Lemma printLevel_passing level msg args (st : Machine) (out : address) :
  1 <= level <= 6 ->
  level <= _level (this st) ->
  _logOutput (this st) = Some out ->
  printLevel level msg args st =
  (Returned tt,
   {| this := this st;
      emitted := emitted st
                 ++ hook_events Prefix (this st)
                 ++ glyph_events (_showLevel (this st)) out (glyph level)
                 ++ [Printf out msg args]
                 ++ hook_events Suffix (this st) |}).
Proof.
  intros Hr Hle Hout. unfold printLevel, bind at 1, read at 1; simpl.
  rewrite Z.gtb_ltb. apply Z.ltb_ge in Hle. rewrite Hle.
  unfold bind at 1. rewrite call_hook_run.
  unfold bind, read; simpl.
  destruct (_showLevel (this st)); [rewrite (index_levels level Hr)|];
    unfold ret, emit; simpl; repeat (rewrite Hout; simpl);
    rewrite call_hook_run; simpl; now rewrite <- !app_assoc.
Qed.

(** A passing call on a logger whose sink pointer is null: the prefix
    hook, when there is one, is called with the null pointer, and the
    first method call on the sink faults. *)
Lemma printLevel_null level msg args (st : Machine) :
  1 <= level <= 6 ->
  level <= _level (this st) ->
  _logOutput (this st) = nullptr ->
  printLevel level msg args st =
  (Crashed NullDereference,
   {| this := this st;
      emitted := emitted st ++ hook_events Prefix (this st) |}).
Proof.
  intros Hr Hle Hout. unfold printLevel, bind at 1, read at 1; simpl.
  rewrite Z.gtb_ltb. apply Z.ltb_ge in Hle. rewrite Hle.
  unfold bind at 1. rewrite call_hook_run.
  unfold bind, read; simpl.
  destruct (_showLevel (this st)); [rewrite (index_levels level Hr)|];
    unfold ret; simpl; now rewrite Hout.
Qed.

Lemma log_filtered (e : entry) msg args (st : Machine) :
  _level (this st) < tier e ->
  log e msg args st = (Returned tt, st).
Proof. rewrite log_printLevel. apply printLevel_filtered. Qed.

Lemma log_passing (e : entry) msg args (st : Machine) (out : address) :
  tier e <= _level (this st) ->
  _logOutput (this st) = Some out ->
  log e msg args st =
  (Returned tt,
   {| this := this st;
      emitted := emitted st
                 ++ hook_events Prefix (this st)
                 ++ glyph_events (_showLevel (this st)) out (glyph (tier e))
                 ++ [Printf out msg args]
                 ++ hook_events Suffix (this st) |}).
Proof.
  rewrite log_printLevel. apply printLevel_passing, tier_range.
Qed.

Lemma log_null (e : entry) msg args (st : Machine) :
  tier e <= _level (this st) ->
  _logOutput (this st) = nullptr ->
  log e msg args st =
  (Crashed NullDereference,
   {| this := this st;
      emitted := emitted st ++ hook_events Prefix (this st) |}).
Proof.
  rewrite log_printLevel. apply printLevel_null, tier_range.
Qed.

(** What was emitted before a logging call has no influence on it: the
    call extends the trace by the events it has on a fresh trace. *)
Lemma log_extends_trace (e : entry) msg args (st : Machine) :
  log e msg args st =
  (outcome (log e msg args) (this st),
   {| this := this st;
      emitted := emitted st ++ events (log e msg args) (this st) |}).
Proof.
  unfold outcome, events.
  destruct (Z_lt_ge_dec (_level (this st)) (tier e)) as [Hlt | Hge].
  - rewrite !log_filtered by (simpl; lia). simpl.
    now rewrite app_nil_r, machine_eta.
  - destruct (_logOutput (this st)) as [out|] eqn:Hout.
    + rewrite (log_passing e msg args st out),
        (log_passing e msg args (fresh (this st)) out) by (simpl; auto; lia).
      reflexivity.
    + rewrite (log_null e msg args st),
        (log_null e msg args (fresh (this st))) by (simpl; auto; lia).
      reflexivity.
Qed.

Lemma filter_nonempty {A} (f : A -> bool) (x : A) (xs : list A) :
  In x xs -> f x = true -> filter f xs <> [].
Proof.
  intros Hin Hf Hnil.
  assert (In x (filter f xs)) as H by (apply filter_In; auto).
  rewrite Hnil in H. destruct H.
Qed.

Lemma sent_to_hook_events (out : address) (k : slot) (l : Logging) :
  sent_to out (hook_events k l) = [].
Proof.
  unfold hook_events.
  destruct k; [destruct (_prefix l) | destruct (_suffix l)]; reflexivity.
Qed.

(* ================================================================== *)
(** ** The threshold filter *)

(** C1.  For a logger with a sink [out], a threshold [L = _level l] and
    any of the six entry points [e] of tier [T = tier e]: the call sends
    something to the sink if and only if [T <= L]; and when [T > L]
    (whatever the sink is) the call returns at once with the machine
    untouched, so nothing is written and neither hook is called. *)
Theorem threshold_filter (e : entry) msg args (l : Logging) :
  (forall out, _logOutput l = Some out ->
     (sent_to out (events (log e msg args) l) <> [] <-> tier e <= _level l))
  /\ (_level l < tier e ->
      log e msg args (fresh l) = (Returned tt, fresh l)
      /\ events (log e msg args) l = []).
Proof.
  split.
  - intros out Hout. unfold events. split.
    + intros Hsent.
      destruct (Z_le_gt_dec (tier e) (_level l)) as [Hle | Hgt]; [exact Hle|].
      exfalso. apply Hsent.
      rewrite log_filtered by (simpl; lia). reflexivity.
    + intros Hle. rewrite (log_passing e msg args (fresh l) out Hle Hout).
      simpl. apply filter_nonempty with (x := Printf out msg args).
      * rewrite !in_app_iff. right. right. now left.
      * apply Pos.eqb_refl.
  - intros Hgt. unfold events.
    rewrite log_filtered by exact Hgt. split; reflexivity.
Qed.

Lemma threshold_filter_witness :
  sent_to 7%positive (events (log Warn "x" []) sample_logger) <> []
  /\ log Debug "x" [] (fresh sample_logger) = (Returned tt, fresh sample_logger).
Proof.
  split.
  - apply (proj1 (threshold_filter Warn "x" [] sample_logger) 7%positive).
    + reflexivity.
    + simpl. unfold LOG_LEVEL_WARN, LOG_LEVEL_INFO. lia.
  - apply (proj2 (threshold_filter Debug "x" [] sample_logger)).
    simpl. unfold LOG_LEVEL_DEBUG, LOG_LEVEL_INFO. lia.
Defined.

(* ================================================================== *)
(** ** The null sink *)

(** C2, as stated, fails: with a null sink and a raised threshold,
    [fatal("x")] does not return; it calls a method through the null
    pointer. *)
Lemma null_sink_not_always_noop :
  _logOutput raised_without_begin = nullptr
  /\ outcome (fatal "x" []) raised_without_begin = Crashed NullDereference
  /\ ~ (forall (l : Logging) (e : entry) msg args,
          _logOutput l = nullptr ->
          log e msg args (fresh l) = (Returned tt, fresh l)).
Proof.
  split; [reflexivity|]. split; [reflexivity|].
  intros H. specialize (H raised_without_begin Fatal "x" [] eq_refl).
  discriminate H.
Qed.

(** C2, amended.  With a null sink, a logging call is a safe no-op (it
    returns, with nothing emitted and no hook called) exactly when its
    tier is above the threshold; a passing call faults on the null
    pointer and writes nothing.  On the object as constructed the
    threshold is SILENT, so there every logging call is a safe no-op. *)
Theorem null_sink_noop_iff_filtered (l : Logging) (e : entry) msg args :
  _logOutput l = nullptr ->
  (log e msg args (fresh l) = (Returned tt, fresh l) <-> _level l < tier e)
  /\ (tier e <= _level l ->
      outcome (log e msg args) l = Crashed NullDereference
      /\ outputs (events (log e msg args) l) = [])
  /\ log e msg args boot = (Returned tt, boot).
Proof.
  intros Hnull. split; [split|split].
  - intros Hnoop.
    destruct (Z_lt_ge_dec (_level l) (tier e)) as [Hlt | Hge]; [exact Hlt|].
    rewrite log_null in Hnoop by (simpl; auto; lia). discriminate Hnoop.
  - intros Hlt. now apply log_filtered.
  - intros Hle. unfold outcome, events.
    rewrite log_null by (simpl; auto). simpl. split; [reflexivity|].
    unfold hook_events. destruct (_prefix l); reflexivity.
  - apply log_filtered. simpl. pose proof (tier_range e).
    unfold LOG_LEVEL_SILENT. lia.
Qed.

Lemma null_sink_noop_iff_filtered_witness :
  (log Trace "x" [] (fresh Logging_ctor) = (Returned tt, fresh Logging_ctor)
   <-> _level Logging_ctor < tier Trace)
  /\ log Trace "x" [] boot = (Returned tt, boot)
  /\ outcome (log Fatal "x" []) raised_without_begin = Crashed NullDereference.
Proof.
  pose proof (null_sink_noop_iff_filtered Logging_ctor Trace "x" [] eq_refl)
    as [H1 [_ H3]].
  pose proof (null_sink_noop_iff_filtered raised_without_begin Fatal "x" []
                eq_refl) as [_ [H2 _]].
  split; [exact H1|]. split; [exact H3|].
  apply H2. vm_compute. discriminate.
Defined.

(* ================================================================== *)
(** ** Clamping of the threshold *)

(** C3.  [setLevel(x)] and [begin(x, sink, showLevel)] return (nothing is
    rejected, the result is [void]) and afterwards [getLevel()] is 0 for
    [x < 0], 6 for [6 < x] and [x] otherwise; [setLevel(-5)] gives 0 and
    [setLevel(99)] gives 6. *)
Theorem level_is_clamped (x : Z) (sink : pointer) (showLevel : bool)
    (l : Logging) :
  let clamped := if x <? 0 then 0 else if 6 <? x then 6 else x in
  outcome (setLevel x) l = Returned tt
  /\ outcome getLevel (after (setLevel x) l) = Returned clamped
  /\ outcome (begin x sink showLevel) l = Returned tt
  /\ outcome getLevel (after (begin x sink showLevel) l) = Returned clamped
  /\ outcome getLevel (after (setLevel (-5)) l) = Returned 0
  /\ outcome getLevel (after (setLevel 99) l) = Returned 6.
Proof.
  cbv zeta. unfold outcome, after, begin, setLevel, setShowLevel, getLevel,
    bind, update, read, constrain, LOG_LEVEL_SILENT, LOG_LEVEL_TRACE; simpl.
  rewrite (Z.gtb_ltb x 6).
  repeat split; reflexivity.
Qed.

(* ================================================================== *)
(** ** What a passing call sends *)

Lemma append_empty_r (s : string) : (s ++ "")%string = s.
Proof. induction s as [|c s IH]; simpl; [reflexivity | now rewrite IH]. Qed.

Lemma outputs_hook_events (k : slot) (l : Logging) :
  outputs (hook_events k l) = [].
Proof.
  unfold hook_events.
  destruct k; [destruct (_prefix l) | destruct (_suffix l)]; reflexivity.
Qed.

Lemma received_hook_events vprintf (out : address) (k : slot) (l : Logging)
    (tr : list event) :
  received vprintf out (hook_events k l ++ tr) = received vprintf out tr.
Proof.
  unfold hook_events.
  destruct k; [destruct (_prefix l) | destruct (_suffix l)]; reflexivity.
Qed.

Lemma received_hook_events_last vprintf (out : address) (k : slot)
    (l : Logging) :
  received vprintf out (hook_events k l) = "".
Proof.
  rewrite <- (app_nil_r (hook_events k l)). apply received_hook_events.
Qed.

(** C4.  With [showLevel] true, a passing call on a logger with sink
    [out] sends to the sink exactly: the one character at index
    [tier - 1] of the table F,E,W,I,D,T, then the separator ": ", then
    the formatted write of the message; so the sink receives the glyph,
    ": " and the formatted message, in this order. *)
Theorem glyph_and_separator (vprintf : string -> list arg -> string)
    (e : entry) msg args (l : Logging) (out : address) :
  _showLevel l = true ->
  tier e <= _level l ->
  _logOutput l = Some out ->
  let c := nth (Z.to_nat (tier e - 1)) ["F"; "E"; "W"; "I"; "D"; "T"]%char zero in
  outputs (events (log e msg args) l)
    = [PrintChar out c; PrintStr out ": "; Printf out msg args]
  /\ sent_to out (events (log e msg args) l)
    = [PrintChar out c; PrintStr out ": "; Printf out msg args]
  /\ received vprintf out (events (log e msg args) l)
    = String c (": " ++ vprintf msg args).
Proof.
  intros Hshow Hle Hout c. unfold events.
  rewrite (log_passing e msg args (fresh l) out Hle Hout). simpl.
  rewrite Hshow. unfold outputs, sent_to.
  rewrite !filter_app. fold (outputs (hook_events Prefix l)).
  fold (sent_to out (hook_events Prefix l)).
  rewrite outputs_hook_events, sent_to_hook_events. simpl.
  fold (outputs (hook_events Suffix l)).
  fold (sent_to out (hook_events Suffix l)).
  rewrite outputs_hook_events, sent_to_hook_events, Pos.eqb_refl.
  rewrite received_hook_events. simpl. rewrite Pos.eqb_refl.
  rewrite received_hook_events_last, append_empty_r.
  repeat split; reflexivity.
Qed.

Lemma glyph_and_separator_witness :
  received sample_vprintf 7%positive
    (events (fatal "x" []) (after (setLevel LOG_LEVEL_TRACE) sample_logger))
  = "F: x"
  /\ received sample_vprintf 7%positive
    (events (trace "x" []) (after (setLevel LOG_LEVEL_TRACE) sample_logger))
  = "T: x".
Proof.
  split.
  - apply (glyph_and_separator sample_vprintf Fatal "x" []
             (after (setLevel LOG_LEVEL_TRACE) sample_logger) 7%positive).
    + reflexivity.
    + vm_compute. discriminate.
    + reflexivity.
  - apply (glyph_and_separator sample_vprintf Trace "x" []
             (after (setLevel LOG_LEVEL_TRACE) sample_logger) 7%positive).
    + reflexivity.
    + vm_compute. discriminate.
    + reflexivity.
Defined.

(** C6.  With [showLevel] false, a passing call of any entry point sends
    to the sink the formatted write of the message and nothing else: no
    glyph character and no separator come before it. *)
Theorem no_glyph_when_hidden (vprintf : string -> list arg -> string)
    (e : entry) msg args (l : Logging) (out : address) :
  _showLevel l = false ->
  tier e <= _level l ->
  _logOutput l = Some out ->
  outputs (events (log e msg args) l) = [Printf out msg args]
  /\ received vprintf out (events (log e msg args) l) = vprintf msg args.
Proof.
  intros Hshow Hle Hout. unfold events.
  rewrite (log_passing e msg args (fresh l) out Hle Hout). simpl.
  rewrite Hshow. unfold outputs.
  rewrite !filter_app. fold (outputs (hook_events Prefix l)).
  rewrite outputs_hook_events. simpl.
  fold (outputs (hook_events Suffix l)). rewrite outputs_hook_events.
  rewrite received_hook_events. simpl. rewrite Pos.eqb_refl.
  rewrite received_hook_events_last, append_empty_r.
  split; reflexivity.
Qed.

Lemma no_glyph_when_hidden_witness :
  received sample_vprintf 7%positive
    (events (warn "t=%d%%" [ArgInt (-21)])
       (after (setShowLevel false) sample_logger))
  = "t=-21%".
Proof.
  apply (no_glyph_when_hidden sample_vprintf Warn "t=%d%%" [ArgInt (-21)]
           (after (setShowLevel false) sample_logger) 7%positive).
  - reflexivity.
  - vm_compute. discriminate.
  - reflexivity.
Defined.

(* ================================================================== *)
(** ** The hooks *)

(** C5.  With a prefix hook [pre], a suffix hook [post] and a sink [out]:
    a passing call returns after exactly these calls, in this order:
    [pre(out)], the body (glyph and separator when shown, then the
    formatted write), [post(out)].  A call above the threshold makes no
    call at all. *)
Theorem hooks_around_body (e : entry) msg args (l : Logging)
    (out pre post : address) :
  _prefix l = Some pre ->
  _suffix l = Some post ->
  _logOutput l = Some out ->
  (tier e <= _level l ->
     outcome (log e msg args) l = Returned tt
     /\ events (log e msg args) l
        = [Hook Prefix pre (Some out)]
          ++ (if _showLevel l
              then [PrintChar out (glyph (tier e)); PrintStr out ": "]
              else [])
          ++ [Printf out msg args]
          ++ [Hook Suffix post (Some out)])
  /\ (_level l < tier e ->
      outcome (log e msg args) l = Returned tt
      /\ events (log e msg args) l = []).
Proof.
  intros Hpre Hpost Hout. unfold outcome, events. split.
  - intros Hle. rewrite (log_passing e msg args (fresh l) out Hle Hout).
    simpl. unfold hook_events. rewrite Hpre, Hpost, Hout.
    split; reflexivity.
  - intros Hgt. rewrite log_filtered by exact Hgt. split; reflexivity.
Qed.

Lemma hooks_around_body_witness :
  events (log Error "x" []) sample_logger
  = [Hook Prefix 1%positive (Some 7%positive);
     PrintChar 7%positive "E"; PrintStr 7%positive ": ";
     Printf 7%positive "x" [];
     Hook Suffix 2%positive (Some 7%positive)]
  /\ events (log Trace "x" []) sample_logger = [].
Proof.
  pose proof (hooks_around_body Error "x" [] sample_logger
                7%positive 1%positive 2%positive eq_refl eq_refl eq_refl)
    as [Hpass _].
  pose proof (hooks_around_body Trace "x" [] sample_logger
                7%positive 1%positive 2%positive eq_refl eq_refl eq_refl)
    as [_ Hfilt].
  split.
  - apply Hpass. vm_compute. discriminate.
  - apply Hfilt. vm_compute. reflexivity.
Defined.

(* ================================================================== *)
(** ** Logging calls do not configure *)

Lemma log_this (e : entry) msg args (st : Machine) :
  this (snd (log e msg args st)) = this st.
Proof.
  destruct (Z_lt_ge_dec (_level (this st)) (tier e)) as [Hlt | Hge].
  - now rewrite log_filtered.
  - destruct (_logOutput (this st)) as [out|] eqn:Hout.
    + rewrite (log_passing e msg args st out) by (auto; lia). reflexivity.
    + rewrite log_null by (auto; lia). reflexivity.
Qed.

(** C10.  A logging call, whether it is filtered, passes, or faults on a
    null sink, leaves all five fields of the logger as they were. *)
Theorem log_keeps_configuration (e : entry) msg args (st : Machine) :
  this (snd (log e msg args st)) = this st
  /\ _level (this (snd (log e msg args st))) = _level (this st)
  /\ _showLevel (this (snd (log e msg args st))) = _showLevel (this st)
  /\ _logOutput (this (snd (log e msg args st))) = _logOutput (this st)
  /\ _prefix (this (snd (log e msg args st))) = _prefix (this st)
  /\ _suffix (this (snd (log e msg args st))) = _suffix (this st).
Proof.
  rewrite log_this. repeat split; reflexivity.
Qed.

(* ================================================================== *)
(** ** The threshold stays in range *)

Lemma constrain_range (x : Z) :
  0 <= constrain x LOG_LEVEL_SILENT LOG_LEVEL_TRACE <= 6.
Proof.
  unfold constrain, LOG_LEVEL_SILENT, LOG_LEVEL_TRACE.
  destruct (Z.ltb_spec x 0); [lia|].
  rewrite Z.gtb_ltb. destruct (Z.ltb_spec 6 x); lia.
Qed.

Lemma perform_keeps_range (c : call) (st : Machine) :
  0 <= _level (this st) <= 6 ->
  0 <= _level (this (snd (perform c st))) <= 6.
Proof.
  intros H. destruct c; simpl; try exact H; try apply constrain_range.
  rewrite log_this. exact H.
Qed.

Lemma perform_all_keeps_range (cs : list call) :
  forall st : Machine,
    0 <= _level (this st) <= 6 ->
    0 <= _level (this (snd (perform_all cs st))) <= 6.
Proof.
  induction cs as [|c cs IH]; intros st H; simpl.
  - exact H.
  - unfold bind. pose proof (perform_keeps_range c st H) as Hc.
    destruct (perform c st) as [[[] | f] st']; simpl in *.
    + now apply IH.
    + exact Hc.
Qed.

(** C7.  The threshold is SILENT (0) on the object as constructed;
    [setLevel] and [begin] put it into [0,6] whatever it was and whatever
    they are given; and after any finite sequence of calls of the public
    member functions on the global logger, [getLevel()] returns a value
    in [0,6]. *)
Theorem level_always_in_range (cs : list call) :
  _level Logging_ctor = 0
  /\ (forall x sink showLevel (l : Logging),
       0 <= _level (after (setLevel x) l) <= 6
       /\ 0 <= _level (after (begin x sink showLevel) l) <= 6)
  /\ exists L : Z,
       fst (getLevel (snd (perform_all cs boot))) = Returned L
       /\ 0 <= L <= 6.
Proof.
  split; [reflexivity|]. split.
  - intros x sink showLevel l. split; apply constrain_range.
  - exists (_level (this (snd (perform_all cs boot)))). split; [reflexivity|].
    apply perform_all_keeps_range. simpl. unfold LOG_LEVEL_SILENT. lia.
Qed.

(* ================================================================== *)
(** ** Repeating a configuration call *)

(** C9.  Making the same configuration call twice in a row gives the
    machine (object and trace) that making it once gives, and every
    program that follows runs the same way: same outcome, same object,
    same calls on the sink and the hooks. *)
Theorem configuration_is_idempotent (c : call) (st : Machine)
    (cs : list call) :
  is_configuration c = true ->
  perform c (snd (perform c st)) = perform c st
  /\ perform_all (c :: c :: cs) st = perform_all (c :: cs) st.
Proof.
  intros Hc.
  destruct c; try discriminate Hc; split; reflexivity.
Qed.

Lemma configuration_is_idempotent_witness :
  perform (SetLevel 4) (snd (perform (SetLevel 4) boot))
  = perform (SetLevel 4) boot
  /\ perform_all [SetLevel 4; SetLevel 4; Log Info "x" []] boot
     = perform_all [SetLevel 4; Log Info "x" []] boot.
Proof.
  apply (configuration_is_idempotent (SetLevel 4) boot [Log Info "x" []]).
  reflexivity.
Defined.

(* ================================================================== *)
(** ** Clearing a hook *)

Lemma without_hook_app (k : slot) (tr1 tr2 : list event) :
  without_hook k (tr1 ++ tr2) = without_hook k tr1 ++ without_hook k tr2.
Proof. apply filter_app. Qed.

Lemma without_hook_line (k : slot) (l : Logging) (out : address) (c : ascii)
    msg args :
  hook_events Prefix (after (set_hook k nullptr) l)
  ++ glyph_events (_showLevel l) out c
  ++ [Printf out msg args]
  ++ hook_events Suffix (after (set_hook k nullptr) l)
  = without_hook k
      (hook_events Prefix l
       ++ glyph_events (_showLevel l) out c
       ++ [Printf out msg args]
       ++ hook_events Suffix l).
Proof.
  destruct l as [L sl o pre suf]. unfold hook_events.
  destruct k, pre, suf, sl; reflexivity.
Qed.

Lemma without_hook_prefix_call (k : slot) (l : Logging) :
  hook_events Prefix (after (set_hook k nullptr) l)
  = without_hook k (hook_events Prefix l).
Proof.
  destruct l as [L sl o pre suf]. unfold hook_events.
  destruct k, pre; reflexivity.
Qed.

Lemma log_in_step (k : slot) (e : entry) msg args (a b : Machine) :
  in_step k a b ->
  fst (log e msg args a) = fst (log e msg args b)
  /\ in_step k (snd (log e msg args a)) (snd (log e msg args b)).
Proof.
  intros [Hthis Hemit].
  assert (_level (this a) = _level (this b)) as HL
    by (rewrite Hthis; destruct k; reflexivity).
  assert (_logOutput (this a) = _logOutput (this b)) as HO
    by (rewrite Hthis; destruct k; reflexivity).
  assert (_showLevel (this a) = _showLevel (this b)) as HS
    by (rewrite Hthis; destruct k; reflexivity).
  destruct (Z_lt_ge_dec (_level (this b)) (tier e)) as [Hlt | Hge].
  - rewrite !log_filtered by lia. split; [reflexivity | now split].
  - destruct (_logOutput (this b)) as [out|] eqn:Hout.
    + rewrite (log_passing e msg args a out), (log_passing e msg args b out)
        by (auto; lia).
      split; [reflexivity|]. split; simpl; [exact Hthis|].
      rewrite without_hook_app, <- Hemit, HS, Hthis.
      f_equal. apply without_hook_line.
    + rewrite (log_null e msg args a), (log_null e msg args b) by (auto; lia).
      split; [reflexivity|]. split; simpl; [exact Hthis|].
      rewrite without_hook_app, <- Hemit, Hthis.
      f_equal. apply without_hook_prefix_call.
Qed.

Lemma perform_in_step (k : slot) (c : call) (a b : Machine) :
  sets k c = false ->
  in_step k a b ->
  fst (perform c a) = fst (perform c b)
  /\ in_step k (snd (perform c a)) (snd (perform c b)).
Proof.
  intros Hc Hab.
  destruct c; try (apply log_in_step; exact Hab);
    destruct Hab as [Hthis Hemit];
    (split; [reflexivity|]); split; simpl; try exact Hemit;
    rewrite Hthis; destruct k; try discriminate Hc; reflexivity.
Qed.

Lemma perform_all_in_step (k : slot) (cs : list call) :
  forallb (fun c => negb (sets k c)) cs = true ->
  forall a b : Machine,
    in_step k a b ->
    fst (perform_all cs a) = fst (perform_all cs b)
    /\ in_step k (snd (perform_all cs a)) (snd (perform_all cs b)).
Proof.
  induction cs as [|c cs IH]; intros Hcs a b Hab; simpl.
  - split; [reflexivity | exact Hab].
  - simpl in Hcs. apply andb_true_iff in Hcs as [Hc Hcs].
    apply negb_true_iff in Hc.
    destruct (perform_in_step k c a b Hc Hab) as [Hfst Hstep].
    unfold bind.
    destruct (perform c a) as [ra a'], (perform c b) as [rb b'].
    simpl in Hfst, Hstep. subst rb.
    destruct ra as [[]|f].
    + now apply IH.
    + split; [reflexivity | exact Hstep].
Qed.

Lemma no_hook_left (k : slot) (tr : list event) :
  filter (is_hook k) (without_hook k tr) = [].
Proof.
  unfold without_hook.
  induction tr as [|e tr IH]; simpl; [reflexivity|].
  destruct (is_hook k e) eqn:He; simpl; [exact IH|].
  now rewrite He.
Qed.

(** C8.  Clearing the hook of a slot ([setPrefix(nullptr)], respectively
    [setSuffix(nullptr)]) returns, empties that slot and leaves the other
    slot, the threshold, the glyph flag and the sink as they were.  For
    every program that follows and does not assign the slot again: the
    cleared hook is never called, and the program makes exactly the calls
    it would have made without the clearing, minus the calls of that
    hook, with the same outcome; so the other hook is called as before. *)
Theorem cleared_hook_is_silent (k : slot) (l : Logging) (cs : list call) :
  forallb (fun c => negb (sets k c)) cs = true ->
  let cleared := after (set_hook k nullptr) l in
  outcome (set_hook k nullptr) l = Returned tt
  /\ match k with
     | Prefix => _prefix cleared = nullptr /\ _suffix cleared = _suffix l
     | Suffix => _suffix cleared = nullptr /\ _prefix cleared = _prefix l
     end
  /\ (_level cleared = _level l
      /\ _showLevel cleared = _showLevel l
      /\ _logOutput cleared = _logOutput l)
  /\ filter (is_hook k) (events (perform_all cs) cleared) = []
  /\ events (perform_all cs) cleared
     = without_hook k (events (perform_all cs) l)
  /\ outcome (perform_all cs) cleared = outcome (perform_all cs) l.
Proof.
  intros Hcs cleared.
  assert (in_step k (fresh cleared) (fresh l)) as H0 by (split; reflexivity).
  destruct (perform_all_in_step k cs Hcs _ _ H0) as [Hfst [_ Hemit]].
  split; [destruct k; reflexivity|].
  split; [destruct k; split; reflexivity|].
  split; [destruct k; repeat split; reflexivity|].
  unfold events, outcome. rewrite Hemit.
  split; [apply no_hook_left|]. split; [reflexivity | exact Hfst].
Qed.

Lemma cleared_hook_is_silent_witness :
  filter (is_hook Prefix)
    (events (perform_all [Log Error "x" []; SetLevel 9; Log Trace "y" []])
       (after (setPrefix nullptr) sample_logger)) = []
  /\ events (perform_all [Log Error "x" []; SetLevel 9; Log Trace "y" []])
       (after (setPrefix nullptr) sample_logger)
     = [PrintChar 7%positive "E"; PrintStr 7%positive ": ";
        Printf 7%positive "x" [];
        Hook Suffix 2%positive (Some 7%positive);
        PrintChar 7%positive "T"; PrintStr 7%positive ": ";
        Printf 7%positive "y" [];
        Hook Suffix 2%positive (Some 7%positive)].
Proof.
  pose proof (cleared_hook_is_silent Prefix sample_logger
                [Log Error "x" []; SetLevel 9; Log Trace "y" []] eq_refl)
    as [_ [_ [_ [Hnone [Hsame _]]]]].
  split; [exact Hnone | exact Hsame].
Defined.

(* ================================================================== *)
(** ** Logging sessions on a configured logger *)

Lemma passes_true (l : Logging) (m : message) :
  passes l m = true <-> tier (via m) <= _level l.
Proof. unfold passes. apply Z.leb_le. Qed.

Lemma passes_false (l : Logging) (m : message) :
  passes l m = false <-> _level l < tier (via m).
Proof. unfold passes. rewrite Z.leb_gt. reflexivity. Qed.

(** How a session runs on a logger with a sink, from any machine. *)
Lemma log_calls_run (ms : list message) :
  forall (st : Machine) (out : address),
    _logOutput (this st) = Some out ->
    perform_all (log_calls ms) st =
    (Returned tt,
     {| this := this st;
        emitted := emitted st
                   ++ flat_map (line (this st) out)
                        (filter (passes (this st)) ms) |}).
Proof.
  induction ms as [|m ms IH]; intros st out Hout; simpl.
  - unfold ret. now rewrite app_nil_r, machine_eta.
  - unfold bind. destruct (passes (this st) m) eqn:Hp.
    + apply passes_true in Hp.
      rewrite (log_passing (via m) (text m) (pack m) st out Hp Hout).
      rewrite (IH _ out) by exact Hout. simpl.
      unfold line. now rewrite <- !app_assoc.
    + apply passes_false in Hp.
      rewrite log_filtered by exact Hp. now apply IH.
Qed.

(** X1.  A session of logging calls on a logger with a sink returns,
    leaves the logger as it was, and makes exactly the calls of its
    passing messages, message after message in the order of the session:
    nothing of a passing message is lost and nothing of a filtered one
    shows. *)
Theorem session_trace (l : Logging) (out : address) (ms : list message) :
  _logOutput l = Some out ->
  outcome (perform_all (log_calls ms)) l = Returned tt
  /\ after (perform_all (log_calls ms)) l = l
  /\ events (perform_all (log_calls ms)) l
     = flat_map (line l out) (filter (passes l) ms).
Proof.
  intros Hout. unfold outcome, after, events.
  rewrite (log_calls_run ms (fresh l) out Hout).
  repeat split; reflexivity.
Qed.

Lemma session_trace_witness :
  events (perform_all (log_calls [mkMessage Debug "a" []; mkMessage Warn "b" [];
                                  mkMessage Trace "c" []; mkMessage Fatal "d" []]))
    sample_logger
  = [Hook Prefix 1%positive (Some 7%positive);
     PrintChar 7%positive "W"; PrintStr 7%positive ": ";
     Printf 7%positive "b" [];
     Hook Suffix 2%positive (Some 7%positive);
     Hook Prefix 1%positive (Some 7%positive);
     PrintChar 7%positive "F"; PrintStr 7%positive ": ";
     Printf 7%positive "d" [];
     Hook Suffix 2%positive (Some 7%positive)].
Proof.
  apply (session_trace sample_logger 7%positive
           [mkMessage Debug "a" []; mkMessage Warn "b" [];
            mkMessage Trace "c" []; mkMessage Fatal "d" []]).
  reflexivity.
Defined.

Lemma received_line vprintf (l : Logging) (out : address) (m : message)
    (tr : list event) :
  received vprintf out (line l out m ++ tr)
  = (line_text vprintf l m ++ received vprintf out tr)%string.
Proof.
  unfold line, line_text. rewrite <- !app_assoc.
  rewrite received_hook_events.
  destruct (_showLevel l); simpl; rewrite Pos.eqb_refl;
    now rewrite received_hook_events.
Qed.

Lemma received_lines vprintf (l : Logging) (out : address)
    (ms : list message) :
  received vprintf out (flat_map (line l out) ms) = session_text vprintf l ms.
Proof.
  induction ms as [|m ms IH]; simpl; [reflexivity|].
  now rewrite received_line, IH.
Qed.

(** X2.  The text a sink receives from the logger over a session is the
    texts of the passing messages one after the other: for each, the
    glyph and ": " when the level is shown, then the formatted message.
    The logger adds nothing between two messages and nothing at the end
    (no line break). *)
Theorem session_received (vprintf : string -> list arg -> string)
    (l : Logging) (out : address) (ms : list message) :
  _logOutput l = Some out ->
  received vprintf out (events (perform_all (log_calls ms)) l)
  = session_text vprintf l (filter (passes l) ms).
Proof.
  intros Hout. unfold events.
  rewrite (log_calls_run ms (fresh l) out Hout). simpl.
  apply received_lines.
Qed.

Lemma session_received_witness :
  received sample_vprintf 7%positive
    (events (perform_all (log_calls [mkMessage Debug "a" [];
                                     mkMessage Warn "n=%d" [ArgInt 3];
                                     mkMessage Fatal "d" []]))
       sample_logger)
  = "W: n=3F: d".
Proof.
  apply (session_received sample_vprintf sample_logger 7%positive
           [mkMessage Debug "a" []; mkMessage Warn "n=%d" [ArgInt 3];
            mkMessage Fatal "d" []]).
  reflexivity.
Defined.

(** X3.  Every call a session makes, on a [Print] object or on a hook, is
    directed at the sink the logger holds: no other [Print] object is
    written to and the hooks are handed the sink. *)
Theorem session_targets_sink (l : Logging) (out : address)
    (ms : list message) :
  _logOutput l = Some out ->
  Forall (fun e => target e = Some out)
         (events (perform_all (log_calls ms)) l).
Proof.
  intros Hout. unfold events.
  rewrite (log_calls_run ms (fresh l) out Hout). simpl.
  apply Forall_flat_map, Forall_forall. intros m _.
  unfold line, hook_events, glyph_events. rewrite Hout.
  destruct (_prefix l), (_suffix l), (_showLevel l); simpl;
    repeat constructor.
Qed.

Lemma session_targets_sink_witness :
  Forall (fun e => target e = Some 7%positive)
         (events (perform_all (log_calls [mkMessage Warn "b" []]))
            sample_logger).
Proof.
  apply (session_targets_sink sample_logger 7%positive [mkMessage Warn "b" []]).
  reflexivity.
Defined.

(* ================================================================== *)
(** ** Silence, faults and the table of glyphs *)

(** X4.  After [setLevel(x)] with [x <= 0] the logger is silent: a
    session of any logging calls returns and changes nothing, with no
    call on a hook or on the sink, also when the sink is null. *)
Theorem silent_after_nonpositive_level (x : Z) (st : Machine)
    (ms : list message) :
  x <= 0 ->
  perform_all (log_calls ms) (snd (setLevel x st))
  = (Returned tt, snd (setLevel x st)).
Proof.
  intros Hx.
  assert (_level (this (snd (setLevel x st))) = 0) as H0.
  { simpl. unfold constrain, LOG_LEVEL_SILENT, LOG_LEVEL_TRACE.
    destruct (Z.ltb_spec x 0); [reflexivity|].
    replace x with 0 by lia. reflexivity. }
  generalize dependent (snd (setLevel x st)). intros st' H0.
  induction ms as [|m ms IH]; simpl; [reflexivity|].
  unfold bind. rewrite log_filtered; [exact IH|].
  rewrite H0. pose proof (tier_range (via m)). lia.
Qed.

Lemma silent_after_nonpositive_level_witness :
  perform_all (log_calls [mkMessage Fatal "x" []; mkMessage Trace "y" []])
    (snd (setLevel (-3) (fresh raised_without_begin)))
  = (Returned tt, snd (setLevel (-3) (fresh raised_without_begin))).
Proof.
  apply (silent_after_nonpositive_level (-3) (fresh raised_without_begin)
           [mkMessage Fatal "x" []; mkMessage Trace "y" []]).
  lia.
Defined.

Lemma perform_with_sink (c : call) (st : Machine) :
  gives_sink c = true ->
  _logOutput (this st) <> nullptr ->
  fst (perform c st) = Returned tt
  /\ _logOutput (this (snd (perform c st))) <> nullptr.
Proof.
  intros Hc Hout.
  destruct c as [x [o|] b | | | | | | | e msg args];
    try discriminate Hc; simpl; try (split; [reflexivity | exact Hout]).
  - split; [reflexivity | discriminate].
  - destruct (_logOutput (this st)) as [out|] eqn:Ho; [|contradiction].
    destruct (Z_lt_ge_dec (_level (this st)) (tier e)) as [Hlt | Hge].
    + rewrite log_filtered by exact Hlt. simpl. rewrite Ho. split; easy.
    + rewrite (log_passing e msg args st out) by (auto; lia).
      simpl. rewrite Ho. split; easy.
Qed.

Lemma perform_all_with_sink (cs : list call) :
  forallb gives_sink cs = true ->
  forall st : Machine,
    _logOutput (this st) <> nullptr ->
    fst (perform_all cs st) = Returned tt.
Proof.
  induction cs as [|c cs IH]; intros Hcs st Hout; simpl; [reflexivity|].
  simpl in Hcs. apply andb_true_iff in Hcs as [Hc Hcs].
  destruct (perform_with_sink c st Hc Hout) as [Hfst Hout'].
  unfold bind. destruct (perform c st) as [r st']. simpl in Hfst, Hout'.
  subst r. now apply IH.
Qed.

(** X5.  A program that follows the documented protocol never faults: if
    its first call is [begin] with a non-null sink, and no later [begin]
    is given a null sink, then whatever the levels, hooks and messages,
    and whatever the logger was before, every call returns. *)
Theorem begin_first_never_faults (x : Z) (out : address) (showLevel : bool)
    (cs : list call) (st : Machine) :
  forallb gives_sink cs = true ->
  fst (perform_all (Begin x (Some out) showLevel :: cs) st) = Returned tt.
Proof.
  intros Hcs. change (perform_all (Begin x (Some out) showLevel :: cs) st)
    with (perform_all cs (snd (begin x (Some out) showLevel st))).
  apply perform_all_with_sink; [exact Hcs | discriminate].
Qed.

Lemma begin_first_never_faults_witness :
  fst (perform_all [Begin 9 (Some 7%positive) true; SetPrefix (Some 1%positive);
                    Log Trace "x" []; Begin 2 (Some 8%positive) false;
                    Log Fatal "y" []] boot)
  = Returned tt.
Proof.
  apply (begin_first_never_faults 9 7%positive true
           [SetPrefix (Some 1%positive); Log Trace "x" [];
            Begin 2 (Some 8%positive) false; Log Fatal "y" []] boot).
  reflexivity.
Defined.

Lemma perform_outcomes (c : call) (st : Machine) :
  fst (perform c st) = Returned tt
  \/ fst (perform c st) = Crashed NullDereference.
Proof.
  destruct c as [x o b | | | | | | | e msg args]; simpl; try (now left).
  destruct (Z_lt_ge_dec (_level (this st)) (tier e)) as [Hlt | Hge].
  - rewrite log_filtered by exact Hlt. now left.
  - destruct (_logOutput (this st)) as [out|] eqn:Ho.
    + rewrite (log_passing e msg args st out) by (auto; lia). now left.
    + rewrite log_null by (auto; lia). now right.
Qed.

(** X6.  The only fault a program of public calls can run into is the
    call through a null sink: from any logger, also one whose threshold
    is out of range, the table of glyphs is never read outside its
    bounds. *)
Theorem only_null_sink_faults (cs : list call) (st : Machine) :
  fst (perform_all cs st) = Returned tt
  \/ fst (perform_all cs st) = Crashed NullDereference.
Proof.
  revert st. induction cs as [|c cs IH]; intros st; simpl; [now left|].
  unfold bind. destruct (perform_outcomes c st) as [H | H];
    destruct (perform c st) as [r st']; simpl in H; subst r.
  - apply IH.
  - now right.
Qed.

(** X7.  The threshold guards the table of glyphs from above: when the
    threshold is at most 6, as [setLevel] makes it, [printLevel] reads
    the table within its bounds for every [level >= 1], the levels above
    6 being filtered before the read. *)
Theorem printLevel_index_guarded level msg args (st : Machine) :
  1 <= level ->
  _level (this st) <= 6 ->
  fst (printLevel level msg args st) <> Crashed IndexOutOfBounds.
Proof.
  intros H1 H6.
  destruct (Z_lt_ge_dec (_level (this st)) level) as [Hlt | Hge].
  - rewrite printLevel_filtered by exact Hlt. discriminate.
  - destruct (_logOutput (this st)) as [out|] eqn:Ho.
    + rewrite (printLevel_passing level msg args st out) by (auto; lia).
      discriminate.
    + rewrite printLevel_null by (auto; lia). discriminate.
Qed.

Lemma printLevel_index_guarded_witness :
  fst (printLevel 7 "x" [] (fresh raised_without_begin))
  <> Crashed IndexOutOfBounds.
Proof.
  apply (printLevel_index_guarded 7 "x" [] (fresh raised_without_begin)).
  - lia.
  - vm_compute. discriminate.
Defined.

(** X8.  On a null sink, a passing call with a prefix hook installed
    still calls the hook, handing it the null pointer, and then faults
    on the first write: the hook call is the only call made, and the
    suffix hook is not called. *)
Theorem prefix_hook_gets_null_sink (e : entry) msg args (l : Logging)
    (f : address) :
  _logOutput l = nullptr ->
  _prefix l = Some f ->
  tier e <= _level l ->
  outcome (log e msg args) l = Crashed NullDereference
  /\ events (log e msg args) l = [Hook Prefix f nullptr]
  /\ filter (is_hook Suffix) (events (log e msg args) l) = [].
Proof.
  intros Hout Hpre Hle. unfold outcome, events.
  rewrite log_null by (simpl; auto). simpl.
  unfold hook_events. rewrite Hpre, Hout. repeat split; reflexivity.
Qed.

Lemma prefix_hook_gets_null_sink_witness :
  events (log Fatal "x" []) (after (setPrefix (Some 1%positive))
                               raised_without_begin)
  = [Hook Prefix 1%positive nullptr].
Proof.
  apply (prefix_hook_gets_null_sink Fatal "x" []
           (after (setPrefix (Some 1%positive)) raised_without_begin)
           1%positive).
  - reflexivity.
  - reflexivity.
  - vm_compute. discriminate.
Defined.

(* ================================================================== *)
(** ** How configuration calls compose *)

(** X9.  The later configuration wins: a configuration call followed by
    one that assigns at least the same fields (the same setter again with
    another argument, or [begin] after [setLevel] or [setShowLevel]) has
    no effect of its own; the program runs as if it had not been made. *)
Theorem later_configuration_wins (c d : call) (cs : list call)
    (st : Machine) :
  is_configuration c = true ->
  is_configuration d = true ->
  overwritten_by c d = true ->
  perform_all (c :: d :: cs) st = perform_all (d :: cs) st.
Proof.
  intros Hc Hd Hcd.
  destruct c; try discriminate Hc; destruct d;
    try discriminate Hd; try discriminate Hcd; reflexivity.
Qed.

Lemma later_configuration_wins_witness :
  perform_all [SetLevel 2; Begin 5 (Some 7%positive) false; Log Info "x" []] boot
  = perform_all [Begin 5 (Some 7%positive) false; Log Info "x" []] boot.
Proof.
  apply (later_configuration_wins (SetLevel 2) (Begin 5 (Some 7%positive) false)
           [Log Info "x" []] boot); reflexivity.
Defined.

(** X10.  Configuration calls that assign different fields commute: in
    either order they leave the same logger, so for instance hooks may be
    installed before or after [begin], which does not reset them. *)
Theorem independent_configurations_commute (c d : call) (cs : list call)
    (st : Machine) :
  is_configuration c = true ->
  is_configuration d = true ->
  disjoint c d = true ->
  perform_all (c :: d :: cs) st = perform_all (d :: c :: cs) st.
Proof.
  intros Hc Hd Hcd.
  destruct c; try discriminate Hc; destruct d;
    try discriminate Hd; try discriminate Hcd; reflexivity.
Qed.

Lemma independent_configurations_commute_witness :
  perform_all [SetPrefix (Some 1%positive); Begin 5 (Some 7%positive) true;
               Log Info "x" []] boot
  = perform_all [Begin 5 (Some 7%positive) true; SetPrefix (Some 1%positive);
                 Log Info "x" []] boot.
Proof.
  apply (independent_configurations_commute (SetPrefix (Some 1%positive))
           (Begin 5 (Some 7%positive) true) [Log Info "x" []] boot);
    reflexivity.
Defined.

Lemma constrain_in_range (x : Z) :
  0 <= x <= 6 -> constrain x LOG_LEVEL_SILENT LOG_LEVEL_TRACE = x.
Proof.
  intros H. unfold constrain, LOG_LEVEL_SILENT, LOG_LEVEL_TRACE.
  destruct (Z.ltb_spec x 0); [lia|].
  rewrite Z.gtb_ltb. destruct (Z.ltb_spec 6 x); [lia | reflexivity].
Qed.

(** X11.  Reading the level and setting it back changes nothing: after
    any program run on the global logger, [setLevel(getLevel())] returns
    and leaves the machine exactly as it was, the stored level being one
    the clamp maps to itself. *)
Theorem setLevel_getLevel_round_trip (cs : list call) :
  let st := snd (perform_all cs boot) in
  (level <- getLevel ;; setLevel level) st = (Returned tt, st).
Proof.
  intros st.
  assert (0 <= _level (this st) <= 6) as Hr.
  { apply perform_all_keeps_range. simpl. unfold LOG_LEVEL_SILENT. lia. }
  unfold bind, getLevel, read, setLevel, update; simpl.
  rewrite (constrain_in_range _ Hr).
  destruct st as [[L sl o pre suf] tr]. reflexivity.
Qed.

(* ================================================================== *)
(** ** The build with logging disabled *)

(** X12.  In a build with [DISABLE_LOGGING], every program of public
    calls returns without a call on any sink or hook, also with a null
    sink and any threshold asked for; and the getters answer 0 and
    [false] whatever the program has set. *)
Theorem disabled_build_is_inert (cs : list call) (st : Machine) :
  DisabledBuild.perform_all cs st = (Returned tt, st)
  /\ (DisabledBuild.perform_all cs ;; DisabledBuild.getLevel) st
     = (Returned 0, st)
  /\ (DisabledBuild.perform_all cs ;; DisabledBuild.getShowLevel) st
     = (Returned false, st).
Proof.
  assert (forall st', DisabledBuild.perform_all cs st' = (Returned tt, st'))
    as H.
  { induction cs as [|c cs IH]; intros st'; simpl; [reflexivity|].
    unfold bind.
    assert (DisabledBuild.perform c st' = (Returned tt, st')) as ->
      by (destruct c as [| | | | | | | e msg args];
          try reflexivity; destruct e; reflexivity).
    apply IH. }
  unfold bind. rewrite H. repeat split; reflexivity.
Qed.
